(** * Trilinear hexahedron geometry, the Trilinos solver wrapper and the
      symbolic-function logger

    The unit test [testKernelDriver] of [testShapeFunctionKernel.cpp]
    recomputes, for every quadrature point of the 2x2x2 Gauss-Legendre
    rule, the trilinear shape values, the Jacobian of the isoparametric
    map, its determinant and the physical gradients, and compares them
    with what the element kernel wrote.  This file embeds that
    reference computation, together with the static helper [inverse],
    twice: over the real numbers, for the properties that hold of the
    code term for term, and, in module [Real64], over binary64
    floating-point numbers, which is what [real64] is.  Array indices
    range over finite enumerations, so that every access is in range
    as in the fixed-size C arrays. *)

From Stdlib Require Import Reals Lra Lia List ZArith Ascii String DecimalString.
From Stdlib Require Import Floats.
Import ListNotations.

#[local] Set Warnings "-inexact-float".

Local Open Scope R_scope.

(** ** Indices and arrays *)

(** The index of [real64 v[3]]: 0, 1, 2. *)
Inductive Axis : Type := x0 | x1 | x2.

(** The index of an array of [numNodes] = [numQuadraturePoints] = 8
    entries: 0 .. 7. *)
Inductive Corner : Type := c0 | c1 | c2 | c3 | c4 | c5 | c6 | c7.

Definition Axis_eqb (i j : Axis) : bool :=
  match i, j with
  | x0, x0 | x1, x1 | x2, x2 => true
  | _, _ => false
  end.

(** The ranges of [for( int i=0; i<3; ++i )] and
    [for( localIndex a=0; a<numNodes; ++a )], in loop order. *)
Definition axes : list Axis := [x0; x1; x2].
Definition corners : list Corner := [c0; c1; c2; c3; c4; c5; c6; c7].

(** [real64 v[3]], [real64 J[3][3]] and [real64 X[numNodes][3]]. *)
Definition Vec3 : Type := Axis -> R.
Definition Mat3 : Type := Axis -> Axis -> R.
Definition Nodes : Type := Corner -> Vec3.

(** [= {0}] and [= {{0}}]. *)
Definition vzero : Vec3 := fun _ => 0.
Definition mzero : Mat3 := fun _ _ => 0.

(** The assignments [v[i] = e] and [J[i][j] = e]. *)
Definition vset (v : Vec3) (i : Axis) (e : R) : Vec3 :=
  fun i' => if Axis_eqb i' i then e else v i'.

Definition mset (J : Mat3) (i j : Axis) (e : R) : Mat3 :=
  fun i' j' => if (Axis_eqb i' i && Axis_eqb j' j)%bool then e else J i' j'.

(** Two arrays hold the same numbers. *)
Definition veq (u v : Vec3) : Prop := forall i, u i = v i.

(** ** The tables of [testKernelDriver] *)

(** [pCoords[3][numNodes]]: the corner signs, axis 0 varying fastest. *)
Definition pCoords (k : Axis) (a : Corner) : R :=
  match k, a with
  | x0, c0 => -1 | x0, c1 => 1 | x0, c2 => -1 | x0, c3 => 1
  | x0, c4 => -1 | x0, c5 => 1 | x0, c6 => -1 | x0, c7 => 1
  | x1, c0 => -1 | x1, c1 => -1 | x1, c2 => 1 | x1, c3 => 1
  | x1, c4 => -1 | x1, c5 => -1 | x1, c6 => 1 | x1, c7 => 1
  | x2, c0 => -1 | x2, c1 => -1 | x2, c2 => -1 | x2, c3 => -1
  | x2, c4 => 1 | x2, c5 => 1 | x2, c6 => 1 | x2, c7 => 1
  end.

(** [xCoords[numNodes][3]]: the skewed hexahedron of the test. *)
Definition xCoords : Nodes := fun a i =>
  match a, i with
  | c0, x0 => -1.1 | c0, x1 => -1.3 | c0, x2 => -1.1
  | c1, x0 => 1.3 | c1, x1 => -1.1 | c1, x2 => -1.2
  | c2, x0 => -1.2 | c2, x1 => 1.1 | c2, x2 => -1.1
  | c3, x0 => 1.1 | c3, x1 => 1.2 | c3, x2 => -1.3
  | c4, x0 => -1.3 | c4, x1 => -1.2 | c4, x2 => 1.1
  | c5, x0 => 1.1 | c5, x1 => -1.3 | c5, x2 => 1.2
  | c6, x0 => -1.2 | c6, x1 => 1.2 | c6, x2 => 1.3
  | c7, x0 => 1.2 | c7, x1 => 1.1 | c7, x2 => 1.1
  end.

Definition quadratureFactor : R := 1.0 / 1.732050807568877293528.

(** [xi[3]] of quadrature point [q]. *)
Definition xiAt (q : Corner) : Vec3 :=
  fun k => quadratureFactor * pCoords k q.

(** ** Shape values and reference derivatives *)

(** [N] of lines 139-141. *)
Definition shapeN (xi : Vec3) (a : Corner) : R :=
  0.125 * (1 + xi x0 * pCoords x0 a) *
          (1 + xi x1 * pCoords x1 a) *
          (1 + xi x2 * pCoords x2 a).

(** [dNdXi[3]] of lines 148-156 (and again 171-179). *)
Definition dNdXi (xi : Vec3) (a : Corner) : Vec3 := fun j =>
  match j with
  | x0 => 0.125 * pCoords x0 a *
          (1 + xi x1 * pCoords x1 a) *
          (1 + xi x2 * pCoords x2 a)
  | x1 => 0.125 * (1 + xi x0 * pCoords x0 a) *
          pCoords x1 a *
          (1 + xi x2 * pCoords x2 a)
  | x2 => 0.125 * (1 + xi x0 * pCoords x0 a) *
          (1 + xi x1 * pCoords x1 a) *
          pCoords x2 a
  end.

(** ** The Jacobian *)

(** The body of the node loop, lines 157-163:
    [J[i][j] = J[i][j] + X[a][i] * dNdXi[j]] for all [i], [j]. *)
Definition accumulate (Xa : Vec3) (dN : Vec3) (J : Mat3) : Mat3 :=
  fold_left
    (fun J i =>
       fold_left (fun J j => mset J i j (J i j + Xa i * dN j)) axes J)
    axes J.

(** Lines 145-164: [J] after the loop over the 8 nodes. *)
Definition jacobian (X : Nodes) (xi : Vec3) : Mat3 :=
  fold_left (fun J a => accumulate (X a) (dNdXi xi a) J) corners mzero.

(** ** [inverse] *)

(** Lines 34-42: [scratch[i][j]] is the cofactor of [J[i][j]]. *)
Definition cofactors (J : Mat3) : Mat3 := fun i j =>
  match i, j with
  | x0, x0 => J x1 x1 * J x2 x2 - J x1 x2 * J x2 x1
  | x1, x0 => J x0 x2 * J x2 x1 - J x0 x1 * J x2 x2
  | x2, x0 => J x0 x1 * J x1 x2 - J x0 x2 * J x1 x1
  | x0, x1 => J x1 x2 * J x2 x0 - J x1 x0 * J x2 x2
  | x1, x1 => J x0 x0 * J x2 x2 - J x0 x2 * J x2 x0
  | x2, x1 => J x0 x2 * J x1 x0 - J x0 x0 * J x1 x2
  | x0, x2 => J x1 x0 * J x2 x1 - J x1 x1 * J x2 x0
  | x1, x2 => J x0 x1 * J x2 x0 - J x0 x0 * J x2 x1
  | x2, x2 => J x0 x0 * J x1 x1 - J x0 x1 * J x1 x0
  end.

(** The divisor of line 43. *)
Definition divisor (J scratch : Mat3) : R :=
  J x0 x0 * scratch x0 x0 + J x1 x0 * scratch x1 x0 + J x2 x0 * scratch x2 x0.

(** Lines 45-51: [J[i][j] = scratch[j][i] * invDet] for all [i], [j]. *)
Definition overwrite (scratch : Mat3) (invDet : R) (J : Mat3) : Mat3 :=
  fold_left
    (fun J i =>
       fold_left (fun J j => mset J i j (scratch j i * invDet)) axes J)
    axes J.

(** [inverse( J )]: the matrix left in [J] and the value returned. *)
Definition inverse (J : Mat3) : Mat3 * R :=
  let scratch := cofactors J in
  let invDet := 1 / divisor J scratch in
  (overwrite scratch invDet J, invDet).

(** ** The values the test expects *)

(** Line 165: [detJ = 1/inverse( J )], [J] being the Jacobian. *)
Definition detJ (X : Nodes) (xi : Vec3) : R :=
  1 / snd (inverse (jacobian X xi)).

(** What [J] holds after line 165. *)
Definition Jinverse (X : Nodes) (xi : Vec3) : Mat3 :=
  fst (inverse (jacobian X xi)).

(** Lines 170 and 181-187: [dNdX[i] += dNdXi[j] * J[j][i]] for all [i],
    [j], starting from [{0}]. *)
Definition physicalGradient (Jinv : Mat3) (dN : Vec3) : Vec3 :=
  fold_left
    (fun dNdX i =>
       fold_left (fun dNdX j => vset dNdX i (dNdX i + dN j * Jinv j i)) axes dNdX)
    axes vzero.

(** Lines 168-187 for node [a]. *)
Definition dNdX (X : Nodes) (xi : Vec3) (a : Corner) : Vec3 :=
  physicalGradient (Jinverse X xi) (dNdXi xi a).

(** The three families of numbers compared with the kernel's output at
    one quadrature point: [viewN[q][a]], [viewDetJ[q]], [viewdNdX[q][a][i]]. *)
Record Expected : Type := mkExpected
  { expN : Corner -> R;
    expDetJ : R;
    expdNdX : Corner -> Vec3 }.

(** The body of the loop over [q], lines 133-193. *)
Definition reference (X : Nodes) (q : Corner) : Expected :=
  let xi := xiAt q in
  {| expN := shapeN xi;
     expDetJ := detJ X xi;
     expdNdX := dNdX X xi |}.

(** ** The specification's vocabulary *)

(** Sums over the three axes and over the eight nodes. *)
Definition sum3 (f : Axis -> R) : R := f x0 + f x1 + f x2.

Definition sum8 (f : Corner -> R) : R :=
  f c0 + f c1 + f c2 + f c3 + f c4 + f c5 + f c6 + f c7.


Definition Corner_index (a : Corner) : nat :=
  match a with
  | c0 => 0 | c1 => 1 | c2 => 2 | c3 => 3
  | c4 => 4 | c5 => 5 | c6 => 6 | c7 => 7
  end.

Definition Corner_eqb (a b : Corner) : bool :=
  Nat.eqb (Corner_index a) (Corner_index b).

(** The reference coordinate of corner [b]: its signs in [pCoords]. *)
Definition cornerPoint (b : Corner) : Vec3 := fun k => pCoords k b.

(** The isoparametric map: the node coordinates interpolated with the
    shape values, [x(xi) = sum_a N_a(xi) X[a]]. *)
Definition interpolate (X : Nodes) (xi : Vec3) : Vec3 :=
  fun i => sum8 (fun a => shapeN xi a * X a i).

(** * The reference computation in binary64

    [real64] is [double]: every literal is rounded to the nearest
    binary64 number and every operation rounds its exact result, to
    nearest, ties to even.  The definitions below are the ones above
    with that arithmetic, under the same names; the expressions keep
    the source's operand and loop order, on which the rounding
    depends. *)
Module Real64.

Local Open Scope float_scope.

(** ** Arrays *)

Definition Vec3 : Type := Axis -> float.
Definition Mat3 : Type := Axis -> Axis -> float.
Definition Nodes : Type := Corner -> Vec3.

Definition vzero : Vec3 := fun _ => 0.
Definition mzero : Mat3 := fun _ _ => 0.

Definition vset (v : Vec3) (i : Axis) (e : float) : Vec3 :=
  fun i' => if Axis_eqb i' i then e else v i'.

Definition mset (J : Mat3) (i j : Axis) (e : float) : Mat3 :=
  fun i' j' => if (Axis_eqb i' i && Axis_eqb j' j)%bool then e else J i' j'.

(** ** The tables of [testKernelDriver] *)

Definition pCoords (k : Axis) (a : Corner) : float :=
  match k, a with
  | x0, c0 => -1 | x0, c1 => 1 | x0, c2 => -1 | x0, c3 => 1
  | x0, c4 => -1 | x0, c5 => 1 | x0, c6 => -1 | x0, c7 => 1
  | x1, c0 => -1 | x1, c1 => -1 | x1, c2 => 1 | x1, c3 => 1
  | x1, c4 => -1 | x1, c5 => -1 | x1, c6 => 1 | x1, c7 => 1
  | x2, c0 => -1 | x2, c1 => -1 | x2, c2 => -1 | x2, c3 => -1
  | x2, c4 => 1 | x2, c5 => 1 | x2, c6 => 1 | x2, c7 => 1
  end.

Definition xCoords : Nodes := fun a i =>
  match a, i with
  | c0, x0 => -1.1 | c0, x1 => -1.3 | c0, x2 => -1.1
  | c1, x0 => 1.3 | c1, x1 => -1.1 | c1, x2 => -1.2
  | c2, x0 => -1.2 | c2, x1 => 1.1 | c2, x2 => -1.1
  | c3, x0 => 1.1 | c3, x1 => 1.2 | c3, x2 => -1.3
  | c4, x0 => -1.3 | c4, x1 => -1.2 | c4, x2 => 1.1
  | c5, x0 => 1.1 | c5, x1 => -1.3 | c5, x2 => 1.2
  | c6, x0 => -1.2 | c6, x1 => 1.2 | c6, x2 => 1.3
  | c7, x0 => 1.2 | c7, x1 => 1.1 | c7, x2 => 1.1
  end.

Definition quadratureFactor : float := 1.0 / 1.732050807568877293528.

(** Lines 133-135. *)
Definition xiAt (q : Corner) : Vec3 :=
  fun k => quadratureFactor * pCoords k q.

(** ** Shape values and reference derivatives *)

(** Lines 139-141. *)
Definition shapeN (xi : Vec3) (a : Corner) : float :=
  0.125 * (1 + xi x0 * pCoords x0 a) *
          (1 + xi x1 * pCoords x1 a) *
          (1 + xi x2 * pCoords x2 a).

(** Lines 148-156 and 171-179. *)
Definition dNdXi (xi : Vec3) (a : Corner) : Vec3 := fun j =>
  match j with
  | x0 => 0.125 * pCoords x0 a *
          (1 + xi x1 * pCoords x1 a) *
          (1 + xi x2 * pCoords x2 a)
  | x1 => 0.125 * (1 + xi x0 * pCoords x0 a) *
          pCoords x1 a *
          (1 + xi x2 * pCoords x2 a)
  | x2 => 0.125 * (1 + xi x0 * pCoords x0 a) *
          (1 + xi x1 * pCoords x1 a) *
          pCoords x2 a
  end.

(** ** The Jacobian *)

(** Lines 157-163. *)
Definition accumulate (Xa : Vec3) (dN : Vec3) (J : Mat3) : Mat3 :=
  fold_left
    (fun J i =>
       fold_left (fun J j => mset J i j (J i j + Xa i * dN j)) axes J)
    axes J.

(** Lines 145-164. *)
Definition jacobian (X : Nodes) (xi : Vec3) : Mat3 :=
  fold_left (fun J a => accumulate (X a) (dNdXi xi a) J) corners mzero.

(** ** [inverse] *)

(** Lines 34-42. *)
Definition cofactors (J : Mat3) : Mat3 := fun i j =>
  match i, j with
  | x0, x0 => J x1 x1 * J x2 x2 - J x1 x2 * J x2 x1
  | x1, x0 => J x0 x2 * J x2 x1 - J x0 x1 * J x2 x2
  | x2, x0 => J x0 x1 * J x1 x2 - J x0 x2 * J x1 x1
  | x0, x1 => J x1 x2 * J x2 x0 - J x1 x0 * J x2 x2
  | x1, x1 => J x0 x0 * J x2 x2 - J x0 x2 * J x2 x0
  | x2, x1 => J x0 x2 * J x1 x0 - J x0 x0 * J x1 x2
  | x0, x2 => J x1 x0 * J x2 x1 - J x1 x1 * J x2 x0
  | x1, x2 => J x0 x1 * J x2 x0 - J x0 x0 * J x2 x1
  | x2, x2 => J x0 x0 * J x1 x1 - J x0 x1 * J x1 x0
  end.

(** The divisor of line 43: the expansion along the first column. *)
Definition divisor (J scratch : Mat3) : float :=
  J x0 x0 * scratch x0 x0 + J x1 x0 * scratch x1 x0 + J x2 x0 * scratch x2 x0.

(** Lines 45-51. *)
Definition overwrite (scratch : Mat3) (invDet : float) (J : Mat3) : Mat3 :=
  fold_left
    (fun J i =>
       fold_left (fun J j => mset J i j (scratch j i * invDet)) axes J)
    axes J.

(** [inverse( J )]: the matrix left in [J] and the value returned. *)
Definition inverse (J : Mat3) : Mat3 * float :=
  let scratch := cofactors J in
  let invDet := 1 / divisor J scratch in
  (overwrite scratch invDet J, invDet).

(** ** The values the test expects *)

(** Line 165. *)
Definition detJ (X : Nodes) (xi : Vec3) : float :=
  1 / snd (inverse (jacobian X xi)).

(** What [J] holds after line 165. *)
Definition Jinverse (X : Nodes) (xi : Vec3) : Mat3 :=
  fst (inverse (jacobian X xi)).

(** Lines 170 and 181-187. *)
Definition physicalGradient (Jinv : Mat3) (dN : Vec3) : Vec3 :=
  fold_left
    (fun dNdX i =>
       fold_left (fun dNdX j => vset dNdX i (dNdX i + dN j * Jinv j i)) axes dNdX)
    axes vzero.

(** Lines 168-187 for node [a]. *)
Definition dNdX (X : Nodes) (xi : Vec3) (a : Corner) : Vec3 :=
  physicalGradient (Jinverse X xi) (dNdXi xi a).

(** The numbers compared with [viewN[q][a]], [viewDetJ[q]] and
    [viewdNdX[q][a][i]]. *)
Record Expected : Type := mkExpected
  { expN : Corner -> float;
    expDetJ : float;
    expdNdX : Corner -> Vec3 }.

(** The body of the loop over [q], lines 133-193. *)
Definition reference (X : Nodes) (q : Corner) : Expected :=
  let xi := xiAt q in
  {| expN := shapeN xi;
     expDetJ := detJ X xi;
     expdNdX := dNdX X xi |}.

(** ** The specification's vocabulary, in binary64 *)

(** Sums in index order. *)
Definition sum3 (f : Axis -> float) : float := f x0 + f x1 + f x2.

Definition sum8 (f : Corner -> float) : float :=
  f c0 + f c1 + f c2 + f c3 + f c4 + f c5 + f c6 + f c7.


Definition identity : Mat3 :=
  fun i j => if Axis_eqb i j then 1 else 0.





(** Two numbers differ by at most [tol]. *)
Definition close (tol x y : float) : bool := abs (x - y) <=? tol.

(** One and four units in the last place of 1. *)
Definition ulp : float := 0x1p-52.
Definition ulp4 : float := 0x1p-50.


(** ** Sample inputs *)

(** The regular element: node [a] sits at its own corner signs. *)
Definition cube : Nodes := fun a i => pCoords i a.





(** A reference coordinate far outside the reference cube. *)
Definition farPoint : Vec3 := fun k =>
  match k with
  | x0 => 0x1p53
  | _ => 0
  end.

(** The real number a binary64 number stands for (0 for the
    infinities and NaN, which stand for none). *)
Definition exact (f : float) : R :=
  match Prim2SF f with
  | S754_finite s m e =>
      ((if s then -1 else 1) * IZR (Zpos m) * powerRZ 2 e)%R
  | _ => 0%R
  end.

End Real64.


(** * [TrilinosSolver.cpp]

    The solver wrapper configures and drives objects of the Trilinos
    packages (Epetra, Amesos, AztecOO, ML).  What these objects compute
    is not part of the source; the embedding records, in call order,
    which of their methods the wrapper invokes and with which
    arguments, and whether the wrapper ends in [GEOS_ERROR]. *)
Module TrilinosSolver.

Local Open Scope string_scope.

(** The fields of [LinearSolverParameters] the wrapper reads, grouped
    as the member accesses group them. *)
Record ScalingParameters : Type :=
  { useRowScaling : bool }.

Record KrylovParameters : Type :=
  { maxRestart : Z; maxIterations : Z; tolerance : R }.

Record DomainDecompositionParameters : Type :=
  { overlap : Z }.

Record IluParameters : Type :=
  { fill : Z }.

Record AmgParameters : Type :=
  { isSymmetric : bool;
    maxLevels : Z;
    numSweeps : Z;
    cycleType : string;
    smootherType : string;
    coarseType : string }.

Record LinearSolverParameters : Type :=
  { scaling : ScalingParameters;
    solverType : string;
    preconditionerType : string;
    verbosity : Z;
    dofsPerNode : Z;
    krylov : KrylovParameters;
    dd : DomainDecompositionParameters;
    ilu : IluParameters;
    amg : AmgParameters }.

(** The AztecOO names the wrapper passes to [SetAztecOption] and
    [SetAztecParam]; their numeric values are not in the source. *)
Inductive Az : Type :=
  | AZ_solver | AZ_gmres | AZ_kspace | AZ_bicgstab | AZ_cg
  | AZ_precond | AZ_none | AZ_Jacobi | AZ_dom_decomp | AZ_overlap
  | AZ_subdomain_solve | AZ_ilu | AZ_icc | AZ_ilut
  | AZ_graph_fill | AZ_ilut_fill
  | AZ_conv | AZ_rhs | AZ_output | AZ_summary | AZ_all | AZ_diagnostics.

(** The second argument of [SetAztecOption]: an AztecOO name or an
    integer taken from the parameters. *)
Inductive AzValue : Type :=
  | AzName (c : Az)
  | AzInt (n : Z).

(** The second argument of [list.set]. *)
Inductive ListValue : Type :=
  | LInt (n : Z)
  | LStr (s : string).

(** The library calls, named after the methods.  Constructing the
    Epetra, Amesos and AztecOO objects is not recorded; constructing
    the ML preconditioner, which takes the parameter list, is. *)
Inductive Call : Type :=
  | InvRowSums
  | LeftScale
  | Multiply
  | Amesos_Create (name : string)
  | SymbolicFactorization
  | NumericFactorization
  | Solve
  | PrintStatus
  | PrintTiming
  | SetAztecOption (o : Az) (v : AzValue)
  | SetAztecParam (o : Az) (v : R)
  | ML_SetDefaults (name : string)
  | list_set (key : string) (v : ListValue)
  | MultiLevelPreconditioner
  | SetPrecOperator
  | Iterate (maxIter : Z) (tol : R).

(** A run: the calls made, in order, and how it ended, [inl msg] for
    [GEOS_ERROR( msg )], which ends the run. *)
Definition Run (A : Type) : Type := (string + A) * list Call.

Definition ret {A : Type} (a : A) : Run A := (inr a, []).

Definition bind {A B : Type} (m : Run A) (f : A -> Run B) : Run B :=
  match m with
  | (inl e, w) => (inl e, w)
  | (inr a, w) => let (r, w') := f a in (r, (w ++ w')%list)
  end.

Definition call (c : Call) : Run unit := (inr tt, [c]).

Definition GEOS_ERROR {A : Type} (msg : string) : Run A := (inl msg, []).

Notation "m ;; k" := (bind m (fun _ => k))
  (at level 61, right associativity).
Notation "x <- m ;; k" := (bind m (fun x => k))
  (at level 61, m at next level, right associativity).

(** [std::map< string, string >]: [insert] keeps an existing entry,
    [operator[]] adds an empty string under a missing key and yields
    it. *)
Definition StringMap : Type := list (string * string).

Fixpoint map_find (k : string) (m : StringMap) : option string :=
  match m with
  | [] => None
  | (k', v) :: m' => if String.eqb k k' then Some v else map_find k m'
  end.

Definition map_insert (k v : string) (m : StringMap) : StringMap :=
  match map_find k m with
  | Some _ => m
  | None => (m ++ [(k, v)])%list
  end.

Definition map_index (k : string) (m : StringMap) : string * StringMap :=
  match map_find k m with
  | Some v => (v, m)
  | None => ("", (m ++ [(k, "")])%list)
  end.

(** Lines 198-209: [translate], from GEOSX names to ML names. *)
Definition translateEntries : list (string * string) :=
  [ ("V", "MGV");
    ("W", "MGW");
    ("direct", "Amesos-KLU");
    ("jacobi", "Jacobi");
    ("blockJacobi", "block Jacobi");
    ("gaussSeidel", "Gauss-Seidel");
    ("blockGaussSeidel", "block Gauss-Seidel");
    ("chebyshev", "Chebyshev");
    ("ilu", "ILU");
    ("ilut", "ILUT") ].

Definition translate : StringMap :=
  fold_left (fun m kv => map_insert (fst kv) (snd kv) m) translateEntries [].

(** What [translate[k]] yields on the table as built: the entry under
    [k], or the empty string. *)
Definition translated (k : string) : string :=
  match map_find k translate with
  | Some v => v
  | None => ""
  end.

(** Lines 140-154: the solver type. *)
Definition chooseSolver (p : LinearSolverParameters) : Run unit :=
  if String.eqb (solverType p) "gmres" then
    call (SetAztecOption AZ_solver (AzName AZ_gmres)) ;;
    call (SetAztecOption AZ_kspace (AzInt (maxRestart (krylov p))))
  else if String.eqb (solverType p) "bicgstab" then
    call (SetAztecOption AZ_solver (AzName AZ_bicgstab))
  else if String.eqb (solverType p) "cg" then
    call (SetAztecOption AZ_solver (AzName AZ_cg))
  else
    GEOS_ERROR "The requested linear solverType doesn't seem to exist".

(** Lines 189-227: the [amg] branch. *)
Definition configureAmg (p : LinearSolverParameters) : Run unit :=
  (if isSymmetric (amg p)
   then call (ML_SetDefaults "SA")
   else call (ML_SetDefaults "NSSA")) ;;
  call (list_set "ML output" (LInt (verbosity p))) ;;
  call (list_set "max levels" (LInt (maxLevels (amg p)))) ;;
  call (list_set "aggregation: type" (LStr "Uncoupled")) ;;
  call (list_set "PDE equations" (LInt (dofsPerNode p))) ;;
  call (list_set "smoother: sweeps" (LInt (numSweeps (amg p)))) ;;
  let (cycle, translate1) := map_index (cycleType (amg p)) translate in
  call (list_set "prec type" (LStr cycle)) ;;
  let (smoother, translate2) := map_index (smootherType (amg p)) translate1 in
  call (list_set "smoother: type" (LStr smoother)) ;;
  let (coarse, _) := map_index (coarseType (amg p)) translate2 in
  call (list_set "coarse: type" (LStr coarse)) ;;
  call MultiLevelPreconditioner ;;
  call SetPrecOperator.

(** Lines 160-229: the preconditioner type. *)
Definition choosePreconditioner (p : LinearSolverParameters) : Run unit :=
  if String.eqb (preconditionerType p) "none" then
    call (SetAztecOption AZ_precond (AzName AZ_none))
  else if String.eqb (preconditionerType p) "jacobi" then
    call (SetAztecOption AZ_precond (AzName AZ_Jacobi))
  else if String.eqb (preconditionerType p) "ilu" then
    call (SetAztecOption AZ_precond (AzName AZ_dom_decomp)) ;;
    call (SetAztecOption AZ_overlap (AzInt (overlap (dd p)))) ;;
    call (SetAztecOption AZ_subdomain_solve (AzName AZ_ilu)) ;;
    call (SetAztecOption AZ_graph_fill (AzInt (fill (ilu p))))
  else if String.eqb (preconditionerType p) "icc" then
    call (SetAztecOption AZ_precond (AzName AZ_dom_decomp)) ;;
    call (SetAztecOption AZ_overlap (AzInt (overlap (dd p)))) ;;
    call (SetAztecOption AZ_subdomain_solve (AzName AZ_icc)) ;;
    call (SetAztecOption AZ_graph_fill (AzInt (fill (ilu p))))
  else if String.eqb (preconditionerType p) "ilut" then
    call (SetAztecOption AZ_precond (AzName AZ_dom_decomp)) ;;
    call (SetAztecOption AZ_overlap (AzInt (overlap (dd p)))) ;;
    call (SetAztecOption AZ_subdomain_solve (AzName AZ_ilut)) ;;
    call (SetAztecParam AZ_ilut_fill
            (if (0 <? fill (ilu p))%Z then IZR (fill (ilu p)) else 1.0%R))
  else if String.eqb (preconditionerType p) "amg" then
    configureAmg p
  else
    GEOS_ERROR "The requested preconditionerType doesn't seem to exist".

(** Lines 235-247: the output level. *)
Definition controlOutput (p : LinearSolverParameters) : Run unit :=
  if (verbosity p =? 1)%Z then
    call (SetAztecOption AZ_output (AzName AZ_summary)) ;;
    call (SetAztecOption AZ_diagnostics (AzName AZ_all))
  else if (verbosity p =? 2)%Z then
    call (SetAztecOption AZ_output (AzName AZ_all)) ;;
    call (SetAztecOption AZ_diagnostics (AzName AZ_all))
  else
    call (SetAztecOption AZ_output (AzName AZ_none)).

(** [TrilinosSolver::solve_krylov]. *)
Definition solve_krylov (p : LinearSolverParameters) : Run unit :=
  chooseSolver p ;;
  choosePreconditioner p ;;
  call (SetAztecOption AZ_conv (AzName AZ_rhs)) ;;
  controlOutput p ;;
  call (Iterate (maxIterations (krylov p)) (tolerance (krylov p))).

(** [TrilinosSolver::solve_direct]. *)
Definition solve_direct (p : LinearSolverParameters) : Run unit :=
  call (Amesos_Create "Klu") ;;
  call SymbolicFactorization ;;
  call NumericFactorization ;;
  call Solve ;;
  if (0 <? verbosity p)%Z then
    call PrintStatus ;;
    call PrintTiming
  else
    ret tt.

(** [TrilinosSolver::solve]. *)
Definition solve (p : LinearSolverParameters) : Run unit :=
  (if useRowScaling (scaling p) then
     call InvRowSums ;;
     call LeftScale ;;
     call Multiply
   else
     ret tt) ;;
  if String.eqb (solverType p) "direct" then
    solve_direct p
  else
    solve_krylov p.

(** What a run did: how it ended and the calls it made. *)
Definition outcome {A : Type} (r : Run A) : string + A := fst r.
Definition calls {A : Type} (r : Run A) : list Call := snd r.

Definition isIterate (c : Call) : bool :=
  match c with Iterate _ _ => true | _ => false end.

Definition isScaling (c : Call) : bool :=
  match c with InvRowSums | LeftScale | Multiply => true | _ => false end.

Definition isAztec (c : Call) : bool :=
  match c with
  | SetAztecOption _ _ | SetAztecParam _ _ | SetPrecOperator | Iterate _ _ => true
  | _ => false
  end.

Definition Az_index (c : Az) : nat :=
  match c with
  | AZ_solver => 0 | AZ_gmres => 1 | AZ_kspace => 2 | AZ_bicgstab => 3
  | AZ_cg => 4 | AZ_precond => 5 | AZ_none => 6 | AZ_Jacobi => 7
  | AZ_dom_decomp => 8 | AZ_overlap => 9 | AZ_subdomain_solve => 10
  | AZ_ilu => 11 | AZ_icc => 12 | AZ_ilut => 13 | AZ_graph_fill => 14
  | AZ_ilut_fill => 15 | AZ_conv => 16 | AZ_rhs => 17 | AZ_output => 18
  | AZ_summary => 19 | AZ_all => 20 | AZ_diagnostics => 21
  end.

(** The values given to option [o], in call order. *)
Definition optionValues (o : Az) (w : list Call) : list AzValue :=
  flat_map (fun c =>
              match c with
              | SetAztecOption o' v =>
                  if Nat.eqb (Az_index o') (Az_index o) then [v] else []
              | _ => []
              end) w.

Definition knownSolvers : list string := ["gmres"; "bicgstab"; "cg"].

Definition knownPreconditioners : list string :=
  ["none"; "jacobi"; "ilu"; "icc"; "ilut"; "amg"].

Definition member (s : string) (l : list string) : bool :=
  existsb (String.eqb s) l.

Definition solverError : string :=
  "The requested linear solverType doesn't seem to exist".

Definition preconditionerError : string :=
  "The requested preconditionerType doesn't seem to exist".

(** Parameters for running the wrapper: GMRES with ILUT and a
    non-positive fill, row scaling on. *)
Definition sampleParameters : LinearSolverParameters :=
  {| scaling := {| useRowScaling := true |};
     solverType := "gmres";
     preconditionerType := "ilut";
     verbosity := 1;
     dofsPerNode := 3;
     krylov := {| maxRestart := 200; maxIterations := 1000; tolerance := 1e-8 |};
     dd := {| overlap := 0 |};
     ilu := {| fill := 0 |};
     amg := {| isSymmetric := true; maxLevels := 8; numSweeps := 2;
               cycleType := "V"; smootherType := "gaussSeidel";
               coarseType := "direct" |} |}.

(** The same with the AMG preconditioner and a smoother name that
    [translate] does not know. *)
Definition amgParameters : LinearSolverParameters :=
  {| scaling := {| useRowScaling := false |};
     solverType := "cg";
     preconditionerType := "amg";
     verbosity := 0;
     dofsPerNode := 3;
     krylov := krylov sampleParameters;
     dd := dd sampleParameters;
     ilu := ilu sampleParameters;
     amg := {| isSymmetric := true; maxLevels := 8; numSweeps := 2;
               cycleType := "V"; smootherType := "sor";
               coarseType := "direct" |} |}.

End TrilinosSolver.

(** * [SymbolicFunction.cpp]

    The logger handed to the MathPresso compiler, and the registration
    of the variables of an expression.  The compiler itself is not part
    of the source: its message-type constants are parameters, and what
    [compile] reports is an input. *)
Module SymbolicFunction.

Local Open Scope string_scope.

Definition newline : string := String "010"%char EmptyString.

(** An [unsigned int] as [GEOSX_FMT] prints it under [{}]. *)
Definition decimal (n : N) : string :=
  NilEmpty.string_of_uint (N.to_uint n).

(** The members of [GeosxMathpressoLogger]; [m_stream] holds the text
    written so far. *)
Record Logger : Type :=
  { m_name : string;
    m_stream : string }.

(** The constructor: the stream starts empty. *)
Definition newLogger (name : string) : Logger :=
  {| m_name := name; m_stream := "" |}.

(** One call of [log], without the unused [size]. *)
Record Message : Type :=
  { msgType : N;
    msgLine : N;
    msgColumn : N;
    msgText : string }.

Section Log.

(** [mathpresso::kMessageError] and [mathpresso::kMessageWarning]. *)
Variables kMessageError kMessageWarning : N.

(** [SymbolicFunction::catalogName()]. *)
Variable catalogName : string.

(** Lines 81-98: the text one call appends to the stream. *)
Definition entry (m : Message) : string :=
  if N.eqb (msgType m) kMessageError then
    "[ERROR]: " ++ msgText m ++ " (line " ++ decimal (msgLine m)
      ++ ", column " ++ decimal (msgColumn m) ++ ")" ++ newline
  else if N.eqb (msgType m) kMessageWarning then
    "[WARNING]: " ++ msgText m ++ " (line " ++ decimal (msgLine m)
      ++ ", column " ++ decimal (msgColumn m) ++ ")" ++ newline
  else
    "[OTHER]" ++ newline ++ msgText m.

(** [GeosxMathpressoLogger::log]. *)
Definition log (l : Logger) (m : Message) : Logger :=
  {| m_name := m_name l; m_stream := m_stream l ++ entry m |}.

(** The destructor: what it passes to [GEOSX_LOG_RANK_0], if
    anything. *)
Definition destroy (l : Logger) : option string :=
  if String.eqb (m_stream l) "" then None
  else Some (catalogName ++ " '" ++ m_name l
             ++ "': JIT compiler produced the following output:"
             ++ newline ++ m_stream l).

End Log.

(** [sizeof(double)]. *)
Definition sizeof_double : Z := 8.

(** Conversion to [size_t] (64 bits, unsigned) and to [int] (32 bits,
    two's complement). *)
Definition to_size_t (z : Z) : Z := z mod 2 ^ 64.

Definition to_int (z : Z) : Z := (z + 2 ^ 31) mod 2 ^ 32 - 2 ^ 31.

(** Line 113: the offset [static_cast< int >( ii * sizeof(double) )]. *)
Definition variableOffset (ii : Z) : Z :=
  to_int (to_size_t (to_size_t ii * sizeof_double)).

(** Lines 111-114: the calls of [addVariable], from index [ii] on. *)
Fixpoint addVariables (ii : Z) (names : list string) : list (string * Z) :=
  match names with
  | [] => []
  | name :: rest => (name, variableOffset ii) :: addVariables (ii + 1) rest
  end.

(** The calls [initializeFunction] makes. *)
Inductive Call : Type :=
  | addVariable (name : string) (offset : Z)
  | addBuiltIns
  | compile (expression : string)
  | GEOSX_LOG_RANK_0 (text : string).

(** [SymbolicFunction::initializeFunction], given what [compile] does:
    the messages it logs and whether it returns [kErrorOk].  The
    logger lives inside the lambda of lines 119-123, so its destructor
    runs before [GEOSX_ERROR_IF].  The result is the list of calls and
    [Some msg] for a run ended by [GEOSX_ERROR_IF]. *)
Definition initializeFunction
  (kMessageError kMessageWarning : N) (catalogName : string)
  (name : string) (variableNames : list string) (expression : string)
  (logged : list Message) (errOk : bool) : list Call * option string :=
  let outputLog :=
    fold_left (log kMessageError kMessageWarning) logged (newLogger name) in
  (map (fun v => addVariable (fst v) (snd v)) (addVariables 0 variableNames)
   ++ [addBuiltIns; compile expression]
   ++ match destroy catalogName outputLog with
      | Some text => [GEOSX_LOG_RANK_0 text]
      | None => []
      end,
   if errOk then None else Some "MathPresso JIT Compiler Error")%list.

(** The variables registered by a run, in order. *)
Definition registered (w : list Call) : list (string * Z) :=
  flat_map (fun c => match c with
                     | addVariable n o => [(n, o)]
                     | _ => []
                     end) w.

Definition logged_text (w : list Call) : list string :=
  flat_map (fun c => match c with
                     | GEOSX_LOG_RANK_0 t => [t]
                     | _ => []
                     end) w.

End SymbolicFunction.

(** * Properties *)

(** ** Arrays and loops *)

Lemma eighth : 0.125 = / 8.
Proof. lra. Qed.



(** ** Physical gradients *)


(** ** Shape values *)

Lemma quadratureFactor_bounds : 0.577 < quadratureFactor < 0.578.
Proof. unfold quadratureFactor. lra. Qed.

Lemma Corner_eqb_eq a b : Corner_eqb a b = true <-> a = b.
Proof. destruct a, b; cbn; split; intros H; try reflexivity; discriminate H. Qed.

(** X1.  Each shape function is 1 at its own corner of the reference
    cube and 0 at the seven others, so the interpolated map sends
    corner [b] to node [b]. *)
Theorem shape_values_at_corners (a b : Corner) :
  shapeN (cornerPoint b) a = (if Corner_eqb a b then 1 else 0) /\
  forall X : Nodes, veq (interpolate X (cornerPoint b)) (X b).
Proof.
  split.
  - unfold shapeN, cornerPoint. rewrite eighth.
    destruct a, b; cbn [pCoords Corner_eqb Corner_index Nat.eqb]; field.
  - intros X i. unfold interpolate, sum8, shapeN, cornerPoint. rewrite eighth.
    destruct b; cbn [pCoords]; field.
Qed.

Lemma unit_product u v w :
  0 <= u <= 2 -> 0 <= v <= 2 -> 0 <= w <= 2 ->
  0 <= / 8 * u * v * w <= 1.
Proof.
  intros Hu Hv Hw.
  assert (Huv : 0 <= u * v <= 4).
  { split; [apply Rmult_le_pos; lra |].
    apply Rle_trans with (2 * v); [apply Rmult_le_compat_r; lra | lra]. }
  assert (Huvw : 0 <= u * v * w <= 8).
  { split; [apply Rmult_le_pos; lra |].
    apply Rle_trans with (4 * w); [apply Rmult_le_compat_r; lra | lra]. }
  lra.
Qed.

(** X2.  Inside the reference cube, [-1 <= xi_k <= 1] on every axis,
    every shape value lies between 0 and 1. *)
Theorem shape_values_in_unit_interval (xi : Vec3) (a : Corner) :
  (forall k, -1 <= xi k <= 1) ->
  0 <= shapeN xi a <= 1.
Proof.
  intros H. pose proof (H x0). pose proof (H x1). pose proof (H x2).
  unfold shapeN. rewrite eighth.
  destruct a; cbn [pCoords]; apply unit_product; lra.
Qed.

Lemma xiAt_in_cube q k : -1 <= xiAt q k <= 1.
Proof.
  pose proof quadratureFactor_bounds.
  unfold xiAt. destruct q, k; cbn [pCoords]; lra.
Qed.

Lemma shape_values_in_unit_interval_witness :
  0 <= expN (reference xCoords c0) c5 <= 1.
Proof.
  apply (shape_values_in_unit_interval (xiAt c0) c5).
  intros k. apply xiAt_in_cube.
Defined.

(** * Properties of the computation in binary64 *)

Module Real64Properties.
Import Real64.
Local Open Scope float_scope.

(** Two binary64 numbers that the comparison tells apart are
    different. *)
Lemma eqb_false_neq (x y : float) : (x =? y) = false -> (x =? x) = true -> x <> y.
Proof. intros E Hx H. rewrite <- H, Hx in E. discriminate E. Qed.

(** ** The loops, term by term *)





Ltac compute_all :=
  intros;
  repeat match goal with
         | q : Corner |- _ => destruct q
         | i : Axis |- _ => destruct i
         end;
  vm_compute; reflexivity.

(** ** The determinant the test expects *)



(** ** [inverse] *)





(** ** Shape values *)

(** Claim C4, as stated, fails.  At quadrature point 0 the eight shape
    values add up to 0.9999999999999999, and at the reference
    coordinate (2^53, 0, 0) to 0.5. *)
Lemma shape_values_do_not_sum_to_one :
  sum8 (shapeN (xiAt c0)) = 0.99999999999999989 /\
  sum8 (shapeN (xiAt c0)) <> 1 /\
  sum8 (shapeN farPoint) = 0.5.
Proof.
  repeat split; try (vm_compute; reflexivity).
  apply eqb_false_neq; vm_compute; reflexivity.
Qed.

(** Claim C4, as the code has it.  At every quadrature point of every
    element the eight shape values the test expects add up to 1 within
    one unit in the last place. *)
Theorem partition_of_unity_up_to_rounding (X : Nodes) (q : Corner) :
  close ulp (sum8 (expN (reference X q))) 1 = true.
Proof.
  cbn [reference expN]. clear X. compute_all.
Qed.

(** ** Consistency of the physical gradients *)





(** ** The regular element *)

(** Claim C7, as stated, fails.  On the regular element at quadrature
    point 0 the Jacobian has 0.9999999999999998 on its diagonal, the
    expected determinant is 0.9999999999999993, and the physical
    gradient of node 0 differs from its reference gradient in the last
    digit. *)
Lemma regular_cube_is_not_exact :
  jacobian cube (xiAt c0) x0 x0 = 0.99999999999999978 /\
  expDetJ (reference cube c0) = 0.99999999999999933 /\
  expdNdX (reference cube c0) c0 x0 = -0.31100423396407317 /\
  dNdXi (xiAt c0) c0 x0 = -0.31100423396407312 /\
  jacobian cube (xiAt c0) x0 x0 <> identity x0 x0 /\
  expDetJ (reference cube c0) <> 1 /\
  expdNdX (reference cube c0) c0 x0 <> dNdXi (xiAt c0) c0 x0.
Proof.
  repeat split; try (vm_compute; reflexivity);
    apply eqb_false_neq; vm_compute; reflexivity.
Qed.

(** Claim C7, as the code has it.  The factor of the test is the
    binary64 quotient 1/sqrt 3, so its quadrature points are the Gauss
    points rounded.  For the regular element, at each of them, every
    entry of the Jacobian is within four units in the last place of 1
    of the identity, the expected determinant within four of 1, and
    every component of every expected physical gradient within four of
    the reference gradient. *)
Theorem regular_cube_up_to_rounding :
  quadratureFactor = 1 / sqrt 3 /\
  (forall (q : Corner) i j,
     close ulp4 (jacobian cube (xiAt q) i j) (identity i j) = true) /\
  (forall q : Corner, close ulp4 (expDetJ (reference cube q)) 1 = true) /\
  (forall (q a : Corner) i,
     close ulp4 (expdNdX (reference cube q) a i) (dNdXi (xiAt q) a i) = true).
Proof.
  split; [vm_compute; reflexivity |].
  split; [| split]; compute_all.
Qed.

(** ** Renumbering the nodes by a single-axis flip *)



(** ** The division of line 43 *)




End Real64Properties.

(** ** A division by zero without a singular matrix *)



(** * Properties of [TrilinosSolver] *)

Module TrilinosSolverProperties.
Import TrilinosSolver.
Local Open Scope string_scope.

(** ** Runs *)

Lemma outcome_bind {A B} (m : Run A) (f : A -> Run B) :
  outcome (bind m f) =
  match outcome m with
  | inl e => inl e
  | inr a => outcome (f a)
  end.
Proof.
  destruct m as [[e | a] w]; cbn; [reflexivity |].
  destruct (f a); reflexivity.
Qed.

Lemma calls_bind {A B} (m : Run A) (f : A -> Run B) :
  calls (bind m f) =
  match outcome m with
  | inl _ => calls m
  | inr a => (calls m ++ calls (f a))%list
  end.
Proof.
  destruct m as [[e | a] w]; cbn; [reflexivity |].
  destruct (f a); reflexivity.
Qed.

Lemma member_In s l : member s l = true <-> In s l.
Proof.
  unfold member. rewrite existsb_exists. split.
  - intros [x [Hx E]]. apply String.eqb_eq in E. now subst.
  - intros H. exists s. split; [exact H | apply String.eqb_refl].
Qed.

(** ** The [translate] table *)

Lemma map_find_app k m m' :
  map_find k (m ++ m')%list =
  match map_find k m with
  | Some v => Some v
  | None => map_find k m'
  end.
Proof.
  induction m as [| [k' v] m IH]; cbn; [reflexivity |].
  destruct (String.eqb k k'); [reflexivity | exact IH].
Qed.

(** A lookup through [operator[]] is not changed by the entries that
    earlier lookups added. *)
Lemma map_index_after k k' m :
  fst (map_index k (snd (map_index k' m))) = fst (map_index k m).
Proof.
  unfold map_index at 2.
  destruct (map_find k' m) as [v' |] eqn:E'; cbn [snd]; [reflexivity |].
  unfold map_index. rewrite map_find_app. cbn [map_find].
  destruct (map_find k m) as [v |]; cbn [fst]; [reflexivity |].
  destruct (String.eqb k k'); reflexivity.
Qed.

Lemma map_index_translated k : fst (map_index k translate) = translated k.
Proof.
  unfold map_index, translated.
  destruct (map_find k translate); reflexivity.
Qed.

Lemma configureAmg_outcome p : outcome (configureAmg p) = inr tt.
Proof.
  unfold configureAmg.
  destruct (map_index (cycleType (amg p)) translate) as [cy m1].
  destruct (map_index (smootherType (amg p)) m1) as [sm m2].
  destruct (map_index (coarseType (amg p)) m2) as [co m3].
  destruct (isSymmetric (amg p)); reflexivity.
Qed.

Lemma configureAmg_calls p :
  calls (configureAmg p) =
  [ ML_SetDefaults (if isSymmetric (amg p) then "SA" else "NSSA");
    list_set "ML output" (LInt (verbosity p));
    list_set "max levels" (LInt (maxLevels (amg p)));
    list_set "aggregation: type" (LStr "Uncoupled");
    list_set "PDE equations" (LInt (dofsPerNode p));
    list_set "smoother: sweeps" (LInt (numSweeps (amg p)));
    list_set "prec type" (LStr (translated (cycleType (amg p))));
    list_set "smoother: type" (LStr (translated (smootherType (amg p))));
    list_set "coarse: type" (LStr (translated (coarseType (amg p))));
    MultiLevelPreconditioner;
    SetPrecOperator ].
Proof.
  rewrite <- !map_index_translated.
  rewrite <- (map_index_after (smootherType (amg p)) (cycleType (amg p)) translate).
  rewrite <- (map_index_after (coarseType (amg p)) (cycleType (amg p)) translate).
  rewrite <- (map_index_after (coarseType (amg p)) (smootherType (amg p))
                (snd (map_index (cycleType (amg p)) translate))).
  unfold configureAmg.
  destruct (map_index (cycleType (amg p)) translate) as [cy m1]; cbn [fst snd].
  destruct (map_index (smootherType (amg p)) m1) as [sm m2]; cbn [fst snd].
  destruct (map_index (coarseType (amg p)) m2) as [co m3]; cbn [fst snd].
  destruct (isSymmetric (amg p)); reflexivity.
Qed.

(** ** The three choices of [solve_krylov] *)

Lemma chooseSolver_outcome p :
  outcome (chooseSolver p) =
  if member (solverType p) knownSolvers then inr tt else inl solverError.
Proof.
  unfold chooseSolver, member, knownSolvers. cbn [existsb].
  destruct (String.eqb (solverType p) "gmres"); [reflexivity |].
  destruct (String.eqb (solverType p) "bicgstab"); [reflexivity |].
  destruct (String.eqb (solverType p) "cg"); reflexivity.
Qed.

Lemma choosePreconditioner_outcome p :
  outcome (choosePreconditioner p) =
  if member (preconditionerType p) knownPreconditioners
  then inr tt else inl preconditionerError.
Proof.
  unfold choosePreconditioner, member, knownPreconditioners. cbn [existsb].
  destruct (String.eqb (preconditionerType p) "none"); [reflexivity |].
  destruct (String.eqb (preconditionerType p) "jacobi"); [reflexivity |].
  destruct (String.eqb (preconditionerType p) "ilu"); [reflexivity |].
  destruct (String.eqb (preconditionerType p) "icc"); [reflexivity |].
  destruct (String.eqb (preconditionerType p) "ilut"); [reflexivity |].
  destruct (String.eqb (preconditionerType p) "amg"); [| reflexivity].
  apply configureAmg_outcome.
Qed.

Lemma controlOutput_outcome p : outcome (controlOutput p) = inr tt.
Proof.
  unfold controlOutput.
  destruct (verbosity p =? 1)%Z; [reflexivity |].
  destruct (verbosity p =? 2)%Z; reflexivity.
Qed.

Lemma krylov_outcome p :
  outcome (solve_krylov p) =
  if negb (member (solverType p) knownSolvers) then inl solverError
  else if negb (member (preconditionerType p) knownPreconditioners)
       then inl preconditionerError
       else inr tt.
Proof.
  unfold solve_krylov.
  rewrite outcome_bind, chooseSolver_outcome.
  destruct (member (solverType p) knownSolvers); cbn [negb]; [| reflexivity].
  rewrite outcome_bind, choosePreconditioner_outcome.
  destruct (member (preconditionerType p) knownPreconditioners);
    cbn [negb]; [| reflexivity].
  rewrite !outcome_bind, controlOutput_outcome. reflexivity.
Qed.

(** X13.  [solve_krylov] ends in [GEOS_ERROR] exactly when the solver
    type is not one of gmres, bicgstab, cg, or the preconditioner type
    is not one of none, jacobi, ilu, icc, ilut, amg; an unknown solver
    type is reported first. *)
Theorem solve_krylov_outcome (p : LinearSolverParameters) :
  (outcome (solve_krylov p) = inr tt <->
   In (solverType p) knownSolvers /\
   In (preconditionerType p) knownPreconditioners) /\
  outcome (solve_krylov p) =
  (if negb (member (solverType p) knownSolvers) then inl solverError
   else if negb (member (preconditionerType p) knownPreconditioners)
        then inl preconditionerError
        else inr tt).
Proof.
  split; [| apply krylov_outcome].
  rewrite krylov_outcome, <- !member_In.
  destruct (member (solverType p) knownSolvers),
           (member (preconditionerType p) knownPreconditioners);
    cbn [negb]; split; try tauto; try discriminate;
    intros [? ?]; discriminate.
Qed.

Lemma chooseSolver_no_iterate p :
  existsb isIterate (calls (chooseSolver p)) = false.
Proof.
  unfold chooseSolver.
  destruct (String.eqb (solverType p) "gmres"); [reflexivity |].
  destruct (String.eqb (solverType p) "bicgstab"); [reflexivity |].
  destruct (String.eqb (solverType p) "cg"); reflexivity.
Qed.

Lemma choosePreconditioner_no_iterate p :
  existsb isIterate (calls (choosePreconditioner p)) = false.
Proof.
  unfold choosePreconditioner.
  destruct (String.eqb (preconditionerType p) "none"); [reflexivity |].
  destruct (String.eqb (preconditionerType p) "jacobi"); [reflexivity |].
  destruct (String.eqb (preconditionerType p) "ilu"); [reflexivity |].
  destruct (String.eqb (preconditionerType p) "icc"); [reflexivity |].
  destruct (String.eqb (preconditionerType p) "ilut"); [reflexivity |].
  destruct (String.eqb (preconditionerType p) "amg"); [| reflexivity].
  rewrite configureAmg_calls. reflexivity.
Qed.

Lemma controlOutput_no_iterate p :
  existsb isIterate (calls (controlOutput p)) = false.
Proof.
  unfold controlOutput.
  destruct (verbosity p =? 1)%Z; [reflexivity |].
  destruct (verbosity p =? 2)%Z; reflexivity.
Qed.

(** X14.  A run of [solve_krylov] that does not end in an error makes
    exactly one call of [Iterate], as its last call, with the
    configured iteration limit and tolerance; a run that ends in an
    error never calls [Iterate]. *)
Theorem iterate_runs_last (p : LinearSolverParameters) :
  match outcome (solve_krylov p) with
  | inr _ =>
      exists w,
        calls (solve_krylov p) =
        (w ++ [Iterate (maxIterations (krylov p)) (tolerance (krylov p))])%list /\
        existsb isIterate w = false
  | inl _ => existsb isIterate (calls (solve_krylov p)) = false
  end.
Proof.
  pose proof (chooseSolver_no_iterate p) as HA.
  pose proof (choosePreconditioner_no_iterate p) as HB.
  pose proof (controlOutput_no_iterate p) as HC.
  pose proof (controlOutput_outcome p) as HCo.
  unfold solve_krylov.
  rewrite outcome_bind, calls_bind.
  destruct (outcome (chooseSolver p)) as [e | []]; [exact HA |].
  rewrite outcome_bind, calls_bind.
  destruct (outcome (choosePreconditioner p)) as [e | []].
  { rewrite existsb_app, HA, HB. reflexivity. }
  rewrite !outcome_bind, !calls_bind, HCo. cbn [outcome calls call fst snd].
  exists (calls (chooseSolver p) ++ calls (choosePreconditioner p)
          ++ [SetAztecOption AZ_conv (AzName AZ_rhs)]
          ++ calls (controlOutput p))%list.
  split.
  - rewrite <- !app_assoc. reflexivity.
  - rewrite !existsb_app, HA, HB, HC. reflexivity.
Qed.

(** ** [solve] *)

Ltac solver_cases p :=
  unfold chooseSolver;
  destruct (String.eqb (solverType p) "gmres");
  [| destruct (String.eqb (solverType p) "bicgstab");
     [| destruct (String.eqb (solverType p) "cg")]].

Ltac preconditioner_cases p :=
  unfold choosePreconditioner;
  destruct (String.eqb (preconditionerType p) "none");
  [| destruct (String.eqb (preconditionerType p) "jacobi");
     [| destruct (String.eqb (preconditionerType p) "ilu");
        [| destruct (String.eqb (preconditionerType p) "icc");
           [| destruct (String.eqb (preconditionerType p) "ilut");
              [| destruct (String.eqb (preconditionerType p) "amg");
                 [rewrite ?configureAmg_calls, ?configureAmg_outcome |]]]]]].

Ltac output_cases p :=
  unfold controlOutput;
  destruct (verbosity p =? 1)%Z;
  [| destruct (verbosity p =? 2)%Z].

Lemma solve_direct_outcome p : outcome (solve_direct p) = inr tt.
Proof. unfold solve_direct. destruct (0 <? verbosity p)%Z; reflexivity. Qed.

Lemma solve_direct_calls p :
  calls (solve_direct p) =
  ([Amesos_Create "Klu"; SymbolicFactorization; NumericFactorization; Solve]
   ++ if (0 <? verbosity p)%Z then [PrintStatus; PrintTiming] else [])%list.
Proof. unfold solve_direct. destruct (0 <? verbosity p)%Z; reflexivity. Qed.

(** The calls of a sequence come from its parts. *)
Lemma existsb_calls_bind {A B} (P : Call -> bool) (m : Run A) (f : A -> Run B) :
  existsb P (calls m) = false ->
  (forall a, existsb P (calls (f a)) = false) ->
  existsb P (calls (bind m f)) = false.
Proof.
  intros Hm Hf. rewrite calls_bind.
  destruct (outcome m); [exact Hm |].
  now rewrite existsb_app, Hm, Hf.
Qed.

Lemma solve_krylov_no_scaling p :
  existsb isScaling (calls (solve_krylov p)) = false.
Proof.
  unfold solve_krylov.
  repeat (apply existsb_calls_bind; [| intros _]); try reflexivity.
  - solver_cases p; reflexivity.
  - preconditioner_cases p; reflexivity.
  - output_cases p; reflexivity.
Qed.

(** X15.  [solve] ends without error exactly when the solver type is
    direct, whatever the preconditioner type, or [solve_krylov] accepts
    both types; and a direct run makes no AztecOO call. *)
Theorem solve_outcome (p : LinearSolverParameters) :
  (outcome (solve p) = inr tt <->
   solverType p = "direct" \/
   (In (solverType p) knownSolvers /\
    In (preconditionerType p) knownPreconditioners)) /\
  (solverType p = "direct" -> existsb isAztec (calls (solve p)) = false).
Proof.
  assert (Hs : outcome (if useRowScaling (scaling p)
                        then call InvRowSums;; call LeftScale;; call Multiply
                        else ret tt) = inr tt)
    by (destruct (useRowScaling (scaling p)); reflexivity).
  split.
  - unfold solve. rewrite outcome_bind, Hs.
    destruct (String.eqb (solverType p) "direct") eqn:E.
    + rewrite solve_direct_outcome. apply String.eqb_eq in E. tauto.
    + apply String.eqb_neq in E.
      rewrite krylov_outcome, <- !member_In.
      destruct (member (solverType p) knownSolvers),
               (member (preconditionerType p) knownPreconditioners);
        cbn [negb]; split; try tauto; try discriminate;
        intros [? | [? ?]]; try contradiction; discriminate.
  - intros E. unfold solve. rewrite E. cbn [String.eqb Ascii.eqb Bool.eqb].
    rewrite calls_bind, Hs, existsb_app, solve_direct_calls.
    destruct (useRowScaling (scaling p)), (0 <? verbosity p)%Z; reflexivity.
Qed.

Lemma solve_outcome_witness :
  existsb isAztec
    (calls (solve {| scaling := scaling sampleParameters;
                     solverType := "direct";
                     preconditionerType := "no such preconditioner";
                     verbosity := 0;
                     dofsPerNode := 1;
                     krylov := krylov sampleParameters;
                     dd := dd sampleParameters;
                     ilu := ilu sampleParameters;
                     amg := amg sampleParameters |})) = false.
Proof.
  apply (proj2 (solve_outcome _)). reflexivity.
Defined.

(** X16.  With row scaling switched on, [solve] rescales the matrix
    and the right-hand side first, before it looks at the solver type,
    also in a run that then ends in an error; without it no scaling
    call is made. *)
Theorem row_scaling_comes_first (p : LinearSolverParameters) :
  let scalingCalls :=
    if useRowScaling (scaling p)
    then [InvRowSums; LeftScale; Multiply] else [] in
  firstn (List.length scalingCalls) (calls (solve p)) = scalingCalls /\
  filter isScaling (calls (solve p)) = scalingCalls.
Proof.
  cbv zeta. unfold solve. rewrite calls_bind.
  assert (Hrest : existsb isScaling
            (calls (if String.eqb (solverType p) "direct"
                    then solve_direct p else solve_krylov p)) = false).
  { destruct (String.eqb (solverType p) "direct").
    - rewrite solve_direct_calls. destruct (0 <? verbosity p)%Z; reflexivity.
    - apply solve_krylov_no_scaling. }
  assert (Hfilter : forall w, existsb isScaling w = false -> filter isScaling w = []).
  { induction w as [| c w IH]; cbn; [reflexivity |].
    destruct (isScaling c); cbn; [discriminate | exact IH]. }
  destruct (useRowScaling (scaling p)); cbn [outcome calls fst snd bind call ret app].
  - split; [reflexivity |].
    cbn [filter isScaling]. now rewrite (Hfilter _ Hrest).
  - split; [reflexivity | apply Hfilter, Hrest].
Qed.

(** ** Parameters handed to AztecOO and ML *)

Lemma In_calls_bind {A B} (c : Call) (m : Run A) (f : A -> Run B) :
  In c (calls (bind m f)) ->
  In c (calls m) \/ exists a, In c (calls (f a)).
Proof.
  rewrite calls_bind. destruct (outcome m) as [e | a]; [tauto |].
  intros H. apply in_app_or in H. destruct H; [tauto | eauto].
Qed.

Ltac not_in_calls :=
  solve [ cbn [calls snd call bind ret GEOS_ERROR app In];
          intros H; repeat (destruct H as [H | H]; [discriminate H |]);
          contradiction ].

(** X17.  The only real-valued parameter [solve_krylov] hands to
    AztecOO is the ILUT fill, and it is never below 1: a fill of 1 or
    more is passed as it is, a fill of 0 or less is replaced by 1. *)
Theorem ilut_fill_at_least_one (p : LinearSolverParameters) (o : Az) (v : R) :
  In (SetAztecParam o v) (calls (solve_krylov p)) ->
  o = AZ_ilut_fill /\
  (1 <= v)%R /\
  v = (if (0 <? fill (ilu p))%Z then IZR (fill (ilu p)) else 1%R).
Proof.
  unfold solve_krylov. intros H.
  apply In_calls_bind in H. destruct H as [H | [_ H]].
  { exfalso. revert H. solver_cases p; not_in_calls. }
  apply In_calls_bind in H. destruct H as [H | [_ H]].
  - revert H. preconditioner_cases p; try (intros H; exfalso; revert H; not_in_calls).
    cbn [calls snd call bind app In].
    intros H. repeat (destruct H as [H | H]; [try discriminate H |]);
      try contradiction.
    injection H as <- <-. split; [reflexivity |].
    destruct (0 <? fill (ilu p))%Z eqn:E.
    + split; [| reflexivity].
      apply Z.ltb_lt in E. apply (IZR_le 1). lia.
    + split; lra.
  - exfalso. apply In_calls_bind in H. destruct H as [H | [_ H]].
    { revert H. not_in_calls. }
    apply In_calls_bind in H. destruct H as [H | [_ H]].
    + revert H. output_cases p; not_in_calls.
    + revert H. not_in_calls.
Qed.

Lemma ilut_fill_at_least_one_witness :
  AZ_ilut_fill = AZ_ilut_fill /\
  (1 <= 1.0)%R /\
  1.0%R = (if (0 <? fill (ilu sampleParameters))%Z
           then IZR (fill (ilu sampleParameters)) else 1%R).
Proof.
  apply (ilut_fill_at_least_one sampleParameters AZ_ilut_fill 1.0%R).
  cbn [solve_krylov chooseSolver choosePreconditioner controlOutput
       sampleParameters solverType preconditionerType verbosity krylov
       maxRestart maxIterations tolerance dd overlap ilu fill
       String.eqb Ascii.eqb Bool.eqb Z.eqb Z.ltb Z.compare Pos.eqb
       calls snd call bind app In].
  tauto.
Defined.

(** X18.  The table [translate] gives back, under each of its ten
    keys, the ML name inserted with it; under every other key
    [translate[k]] is the empty string. *)
Theorem translate_lookup :
  (forall k v, In (k, v) translateEntries -> translated k = v) /\
  (forall k, ~ In k (map fst translateEntries) -> translated k = "").
Proof.
  split.
  - intros k v H. cbn [translateEntries In] in H.
    repeat (destruct H as [H | H]; [injection H as <- <-; reflexivity |]).
    contradiction.
  - intros k H. unfold translated.
    let t := eval cbv in translate in change translate with t.
    cbn [map_find].
    repeat match goal with
    | |- context [String.eqb k ?s] =>
        destruct (String.eqb k s) eqn:?E;
        [ apply String.eqb_eq in E; subst k; exfalso; apply H;
          cbn [translateEntries map fst In]; tauto | clear E ]
    end.
    reflexivity.
Qed.

(** X19.  The [amg] branch never ends in an error, whatever the cycle,
    smoother and coarse-solver names are: each of the three is looked
    up in [translate] on its own, unaffected by the entries the earlier
    lookups added, and handed to ML translated (an unknown name as the
    empty string). *)
Theorem amg_names_are_translated (p : LinearSolverParameters) :
  preconditionerType p = "amg" ->
  outcome (choosePreconditioner p) = inr tt /\
  calls (choosePreconditioner p) =
  [ ML_SetDefaults (if isSymmetric (amg p) then "SA" else "NSSA");
    list_set "ML output" (LInt (verbosity p));
    list_set "max levels" (LInt (maxLevels (amg p)));
    list_set "aggregation: type" (LStr "Uncoupled");
    list_set "PDE equations" (LInt (dofsPerNode p));
    list_set "smoother: sweeps" (LInt (numSweeps (amg p)));
    list_set "prec type" (LStr (translated (cycleType (amg p))));
    list_set "smoother: type" (LStr (translated (smootherType (amg p))));
    list_set "coarse: type" (LStr (translated (coarseType (amg p))));
    MultiLevelPreconditioner;
    SetPrecOperator ].
Proof.
  intros E. unfold choosePreconditioner. rewrite E.
  cbn [String.eqb Ascii.eqb Bool.eqb].
  split; [apply configureAmg_outcome | apply configureAmg_calls].
Qed.

Lemma amg_names_are_translated_witness :
  outcome (choosePreconditioner amgParameters) = inr tt /\
  calls (choosePreconditioner amgParameters) =
  [ ML_SetDefaults "SA";
    list_set "ML output" (LInt 0);
    list_set "max levels" (LInt 8);
    list_set "aggregation: type" (LStr "Uncoupled");
    list_set "PDE equations" (LInt 3);
    list_set "smoother: sweeps" (LInt 2);
    list_set "prec type" (LStr "MGV");
    list_set "smoother: type" (LStr "");
    list_set "coarse: type" (LStr "Amesos-KLU");
    MultiLevelPreconditioner;
    SetPrecOperator ].
Proof.
  apply (amg_names_are_translated amgParameters). reflexivity.
Defined.

(** ** The options of a run *)

Lemma optionValues_app o w w' :
  optionValues o (w ++ w') = (optionValues o w ++ optionValues o w')%list.
Proof. apply flat_map_app. Qed.

Lemma optionValues_preconditioner p o :
  In o [AZ_solver; AZ_kspace; AZ_conv; AZ_output] ->
  optionValues o (calls (choosePreconditioner p)) = [].
Proof.
  intros H. cbn [In] in H.
  preconditioner_cases p;
    repeat (destruct H as [<- | H]; [reflexivity |]); contradiction.
Qed.

Lemma optionValues_solver p :
  optionValues AZ_conv (calls (chooseSolver p)) = [] /\
  optionValues AZ_output (calls (chooseSolver p)) = [] /\
  optionValues AZ_kspace (calls (chooseSolver p)) =
    (if String.eqb (solverType p) "gmres"
     then [AzInt (maxRestart (krylov p))] else []) /\
  (outcome (chooseSolver p) = inr tt ->
   List.length (optionValues AZ_solver (calls (chooseSolver p))) = 1%nat).
Proof.
  solver_cases p; repeat split; try reflexivity; intros H; discriminate H.
Qed.

Lemma optionValues_output p :
  optionValues AZ_conv (calls (controlOutput p)) = [] /\
  optionValues AZ_solver (calls (controlOutput p)) = [] /\
  optionValues AZ_kspace (calls (controlOutput p)) = [] /\
  optionValues AZ_output (calls (controlOutput p)) =
    [AzName (if (verbosity p =? 1)%Z then AZ_summary
             else if (verbosity p =? 2)%Z then AZ_all else AZ_none)].
Proof. output_cases p; repeat split; reflexivity. Qed.

(** X20.  A run of [solve_krylov] that does not end in an error sets
    the solver option once, asks once for convergence relative to the
    right-hand side, and sets the output level once: summary for
    verbosity 1, everything for verbosity 2, nothing for any other
    verbosity.  The Krylov subspace size is set, to [maxRestart], for
    gmres only. *)
Theorem options_of_a_run (p : LinearSolverParameters) :
  optionValues AZ_kspace (calls (solve_krylov p)) =
    (if String.eqb (solverType p) "gmres"
     then [AzInt (maxRestart (krylov p))] else []) /\
  (outcome (solve_krylov p) = inr tt ->
   List.length (optionValues AZ_solver (calls (solve_krylov p))) = 1%nat /\
   optionValues AZ_conv (calls (solve_krylov p)) = [AzName AZ_rhs] /\
   optionValues AZ_output (calls (solve_krylov p)) =
     [AzName (if (verbosity p =? 1)%Z then AZ_summary
              else if (verbosity p =? 2)%Z then AZ_all else AZ_none)]).
Proof.
  destruct (optionValues_solver p) as (Sc & So & Sk & Ss).
  destruct (optionValues_output p) as (Oc & Os & Ok & Oo).
  pose proof (optionValues_preconditioner p) as P.
  pose proof (controlOutput_outcome p) as HCo.
  unfold solve_krylov. rewrite outcome_bind, calls_bind.
  destruct (outcome (chooseSolver p)) as [e | []] eqn:EA.
  { split; [exact Sk | intros H; discriminate H]. }
  rewrite outcome_bind, calls_bind.
  destruct (outcome (choosePreconditioner p)) as [e | []] eqn:EB.
  { split; [| intros H; discriminate H].
    rewrite optionValues_app, Sk, P by (cbn; tauto). apply app_nil_r. }
  rewrite !outcome_bind, !calls_bind, HCo.
  cbn [outcome calls call fst snd].
  rewrite !optionValues_app, Sc, So, Sk, Oc, Os, Ok, Oo.
  rewrite !P by (cbn; tauto).
  split; [| intros _; split; [| split]].
  - cbn. apply app_nil_r.
  - cbn. rewrite app_nil_r. apply Ss. reflexivity.
  - reflexivity.
  - reflexivity.
Qed.

Lemma options_of_a_run_witness :
  List.length (optionValues AZ_solver (calls (solve_krylov sampleParameters))) = 1%nat /\
  optionValues AZ_conv (calls (solve_krylov sampleParameters)) = [AzName AZ_rhs] /\
  optionValues AZ_output (calls (solve_krylov sampleParameters)) =
    [AzName (if (verbosity sampleParameters =? 1)%Z then AZ_summary
             else if (verbosity sampleParameters =? 2)%Z then AZ_all else AZ_none)].
Proof.
  apply (proj2 (options_of_a_run sampleParameters)). reflexivity.
Defined.

End TrilinosSolverProperties.

(** * Properties of [SymbolicFunction] *)

Module SymbolicFunctionProperties.
Import SymbolicFunction.
Local Open Scope string_scope.

(** ** The logger *)

Lemma append_assoc (a b c : string) : (a ++ b) ++ c = a ++ (b ++ c).
Proof. induction a as [| x a IH]; cbn; [reflexivity | now rewrite IH]. Qed.

Lemma append_empty_r (a : string) : a ++ "" = a.
Proof. induction a as [| x a IH]; cbn; [reflexivity | now rewrite IH]. Qed.

Lemma append_eqb_empty (a b : string) :
  String.eqb (a ++ b) "" = (String.eqb a "" && String.eqb b "")%bool.
Proof. destruct a; cbn; [destruct b |]; reflexivity. Qed.

Section Logger.

Variables kMessageError kMessageWarning : N.
Variable catalogName : string.

(** Every call of [log] writes something. *)
Lemma entry_not_empty m : String.eqb (entry kMessageError kMessageWarning m) "" = false.
Proof.
  unfold SymbolicFunction.entry.
  destruct (N.eqb (msgType m) kMessageError); [reflexivity |].
  destruct (N.eqb (msgType m) kMessageWarning); reflexivity.
Qed.

Lemma log_all l msgs :
  m_name (fold_left (log kMessageError kMessageWarning) msgs l) = m_name l /\
  m_stream (fold_left (log kMessageError kMessageWarning) msgs l) =
  m_stream l ++ fold_right String.append "" (map (entry kMessageError kMessageWarning) msgs).
Proof.
  revert l. induction msgs as [| m msgs IH]; intros l; cbn [fold_left map fold_right].
  - now rewrite append_empty_r.
  - destruct (IH (log kMessageError kMessageWarning l m)) as [Hn Hs]. rewrite Hn, Hs.
    cbn [SymbolicFunction.log m_name m_stream].
    split; [reflexivity | apply append_assoc].
Qed.

(** X21.  The logger's destructor prints nothing when [log] was never
    called; after one or more calls it prints, under one header naming
    the function, the text of all calls, in call order. *)
Theorem logger_output (name : string) (msgs : list Message) :
  destroy catalogName (fold_left (log kMessageError kMessageWarning) msgs (newLogger name)) =
  match msgs with
  | [] => None
  | _ :: _ =>
      Some (catalogName ++ " '" ++ name
            ++ "': JIT compiler produced the following output:"
            ++ newline ++ fold_right String.append "" (map (entry kMessageError kMessageWarning) msgs))
  end.
Proof.
  destruct (log_all (newLogger name) msgs) as [Hn Hs].
  unfold destroy. rewrite Hn, Hs. cbn [newLogger m_name m_stream String.append].
  destruct msgs as [| m msgs]; [reflexivity |].
  cbn [map fold_right]. rewrite append_eqb_empty, entry_not_empty.
  reflexivity.
Qed.

End Logger.

(** ** Registration of the variables *)

Lemma variableOffset_small ii :
  (0 <= ii < 2 ^ 28)%Z -> variableOffset ii = (8 * ii)%Z.
Proof.
  intros H. unfold variableOffset, to_int, to_size_t, sizeof_double.
  rewrite (Z.mod_small ii) by lia.
  rewrite (Z.mod_small (ii * 8)) by lia.
  rewrite Z.mod_small by lia. lia.
Qed.

Lemma addVariables_offsets names : forall ii,
  (0 <= ii)%Z -> (ii + Z.of_nat (List.length names) <= 2 ^ 28)%Z ->
  addVariables ii names =
  combine names
    (map (fun i => (8 * (ii + Z.of_nat i))%Z) (seq 0 (List.length names))).
Proof.
  induction names as [| name names IH]; intros ii H0 Hn; [reflexivity |].
  cbn [addVariables List.length seq map combine].
  cbn [List.length] in Hn.
  rewrite variableOffset_small by lia.
  rewrite IH by lia.
  rewrite <- seq_shift, map_map.
  f_equal; [f_equal; lia |].
  f_equal. apply map_ext. intros i. lia.
Qed.

Lemma registered_addVariables l rest :
  registered rest = [] ->
  registered (map (fun v => addVariable (fst v) (snd v)) l ++ rest) = l.
Proof.
  intros Hr. unfold registered in *. rewrite flat_map_app, Hr, app_nil_r.
  induction l as [| [n o] l IH]; cbn; [reflexivity | now rewrite IH].
Qed.

(** X22.  With at most 2^28 variable names, [initializeFunction]
    registers the names in their order, the i-th (from 0) at byte
    offset 8 i: the variables occupy consecutive doubles of the argument
    array.  The bound is sharp: index 2^28 would get a negative
    offset. *)
Theorem variables_are_consecutive_doubles
  (kMessageError kMessageWarning : N) (catalogName name : string)
  (variableNames : list string) (expression : string)
  (logged : list Message) (errOk : bool) :
  (Z.of_nat (List.length variableNames) <= 2 ^ 28)%Z ->
  registered (fst (initializeFunction kMessageError kMessageWarning catalogName
                     name variableNames expression logged errOk)) =
  combine variableNames
    (map (fun i => (8 * Z.of_nat i)%Z) (seq 0 (List.length variableNames))) /\
  variableOffset (2 ^ 28) = (- 2 ^ 31)%Z.
Proof.
  intros Hn. split; [| reflexivity].
  unfold initializeFunction. cbn [fst].
  rewrite registered_addVariables.
  - rewrite addVariables_offsets by lia. reflexivity.
  - destruct (destroy _ _); reflexivity.
Qed.

Lemma variables_are_consecutive_doubles_witness :
  registered (fst (initializeFunction 0 1 "SymbolicFunction" "f"
                     ["x"; "y"; "z"] "x+y*z" [] true)) =
  [("x", 0%Z); ("y", 8%Z); ("z", 16%Z)] /\
  variableOffset (2 ^ 28) = (- 2 ^ 31)%Z.
Proof.
  apply (variables_are_consecutive_doubles 0 1 "SymbolicFunction" "f"
           ["x"; "y"; "z"] "x+y*z" [] true).
  cbn. lia.
Defined.

End SymbolicFunctionProperties.
